(** * ReBuild: the pattern tree of [rebuild/analyser.py]

    A shallow embedding of the regular-expression tree of the ReBuild
    library: the node classes, [optimised] (the structural simplification),
    [regex] (the rendering to pattern text) and [__bool__] (truthiness,
    used by [filter(None, ...)]).

    Python values are modelled as follows.
    - [str] attributes ([char], [name], [modifiers], [from_char], ...) are
      [string]; [int] counts are [Z]; [is_lazy] and [as_atom] are [bool].
    - Each class is one constructor of [RegexNode]; [type(x) is EmptyNode]
      is a match on the constructor.
    - A call that raises finishes the whole [optimised] call; [optimised]
      therefore returns a [Result], threaded through an error monad.
    - [regex] raises nowhere on such trees and is a plain function. *)

From Stdlib Require Import ZArith List Bool Lia.
From Stdlib Require Import Strings.String Strings.Ascii Numbers.DecimalString.
Import ListNotations.

Open Scope string_scope.
Open Scope Z_scope.

(** ** Exceptions and the error monad *)

(** The one exception the module can raise on a tree of nodes: a call that
    leaves out a required positional argument. *)
Inductive PyError : Type :=
| TypeError_missing_argument (callee : string) (argument : string).

Inductive Result (A : Type) : Type :=
| Ok (value : A)
| Raise (error : PyError).

Arguments Ok {A} value.
Arguments Raise {A} error.

Definition bind {A B : Type} (r : Result A) (k : A -> Result B) : Result B :=
  match r with
  | Ok a => k a
  | Raise e => Raise e
  end.

Notation "x <- r ;; k" := (bind r (fun x => k))
  (at level 61, r at next level, right associativity).

(** A list comprehension [[f(x) for x in xs]]: left to right, stopping at
    the first element whose evaluation raises. *)
Definition comprehension {A B : Type} (f : A -> Result B) : list A -> Result (list B) :=
  fix go (xs : list A) : Result (list B) :=
    match xs with
    | [] => Ok []
    | x :: rest =>
        match f x with
        | Raise e => Raise e
        | Ok y =>
            match go rest with
            | Raise e => Raise e
            | Ok ys => Ok (y :: ys)
            end
        end
    end.

(** ** Python primitives *)

(** [str(n)] for an [int]. *)
Definition str (n : Z) : string := NilZero.string_of_int (Z.to_int n).

(** [sep.join(parts)]. *)
Definition join (sep : string) (parts : list string) : string :=
  String.concat sep parts.

(** [len(s) == 0] for a [str]. *)
Definition len_is_0 (s : string) : bool :=
  match s with
  | EmptyString => true
  | String _ _ => false
  end.

(** ** The node classes *)

#[warnings="-register-all"]
Inductive RegexNode : Type :=
| EmptyNode
| Sequence (items : list RegexNode)
| Alternation (options : list RegexNode)
| SingleChar (char : string)
| OneOrMore (pattern : RegexNode) (is_lazy : bool)
| ZeroOrMore (pattern : RegexNode) (is_lazy : bool)
| Optional (pattern : RegexNode) (is_lazy : bool)
| CapturingGroup (pattern : RegexNode)
| NonCapturingGroup (pattern : RegexNode)
| NamedCapturingGroup (name : string) (pattern : RegexNode)
| ModeGroup (modifiers : string) (pattern : RegexNode)
| IfElseGroup (name : string) (then_ : RegexNode) (elsewise : RegexNode)
| Lookaround (pattern : RegexNode) (_symbol : string)
| AnchorStart
| AnchorEnd
| CharSet (options : list RegexNode)
| Range (from_char : string) (to_char : string)
| RepeatExactlyN (pattern : RegexNode) (n : Z) (is_lazy : bool)
| RepeatAtLeastN (pattern : RegexNode) (n : Z) (is_lazy : bool)
| RepeatAtMostN (pattern : RegexNode) (n : Z) (is_lazy : bool)
| RepeatBetweenNM (pattern : RegexNode) (n : Z) (m : Z) (is_lazy : bool).

(** The four subclasses of [Lookaround] only fix the symbol. *)
Definition Lookahead (pattern : RegexNode) : RegexNode := Lookaround pattern "=".
Definition NegativeLookahead (pattern : RegexNode) : RegexNode := Lookaround pattern "!".
Definition Lookbehind (pattern : RegexNode) : RegexNode := Lookaround pattern "<=".
Definition NegativeLookbehind (pattern : RegexNode) : RegexNode := Lookaround pattern "<!".

(** [type(x) is EmptyNode]. *)
Definition is_EmptyNode (x : RegexNode) : bool :=
  match x with
  | EmptyNode => true
  | _ => false
  end.

(** [RegexNode.__bool__], overridden by [EmptyNode] alone. *)
Definition __bool__ (self : RegexNode) : bool :=
  match self with
  | EmptyNode => false
  | _ => true
  end.

(** ** Constructor calls that can fail

    [RepeatExactlyN.__init__(self, pattern, n, is_lazy=False)]: [n] has no
    default, so a call without it raises. *)
Definition RepeatExactlyN__init__ (pattern : RegexNode) (n : option Z)
    (is_lazy : bool) : Result RegexNode :=
  match n with
  | Some n => Ok (RepeatExactlyN pattern n is_lazy)
  | None => Raise (TypeError_missing_argument "RepeatExactlyN.__init__" "n")
  end.

(** ** [optimised] *)

Fixpoint optimised (self : RegexNode) : Result RegexNode :=
  match self with
  | EmptyNode => Ok self
  | Sequence items =>
      optimised_items <- comprehension optimised items ;;
      let non_empty := filter __bool__ optimised_items in
      match non_empty with
      | [] => Ok EmptyNode
      | [only] => Ok only
      | _ => Ok (Sequence non_empty)
      end
  | Alternation options =>
      optimised_options <- comprehension optimised options ;;
      Ok (Alternation optimised_options)
  | SingleChar _ => Ok self
  | OneOrMore pattern is_lazy =>
      if is_EmptyNode pattern then Ok EmptyNode
      else
        optimised_pattern <- optimised pattern ;;
        Ok (OneOrMore optimised_pattern is_lazy)
  | ZeroOrMore pattern is_lazy =>
      if is_EmptyNode pattern then Ok EmptyNode
      else
        optimised_pattern <- optimised pattern ;;
        Ok (ZeroOrMore optimised_pattern is_lazy)
  | Optional pattern is_lazy =>
      if is_EmptyNode pattern then Ok EmptyNode
      else
        optimised_pattern <- optimised pattern ;;
        Ok (Optional optimised_pattern is_lazy)
  | CapturingGroup pattern =>
      optimised_pattern <- optimised pattern ;;
      Ok (CapturingGroup optimised_pattern)
  | NonCapturingGroup pattern => optimised pattern
  | NamedCapturingGroup name pattern =>
      optimised_pattern <- optimised pattern ;;
      Ok (NamedCapturingGroup name optimised_pattern)
  | ModeGroup modifiers pattern =>
      if is_EmptyNode pattern then Ok EmptyNode
      else if len_is_0 modifiers then optimised pattern
      else
        optimised_pattern <- optimised pattern ;;
        Ok (ModeGroup modifiers optimised_pattern)
  | IfElseGroup name then_ elsewise =>
      if is_EmptyNode then_ && is_EmptyNode elsewise then Ok EmptyNode
      else
        optimised_then <- optimised then_ ;;
        optimised_elsewise <- optimised elsewise ;;
        Ok (IfElseGroup name optimised_then optimised_elsewise)
  | Lookaround pattern _symbol =>
      if is_EmptyNode pattern then Ok EmptyNode
      else
        optimised_pattern <- optimised pattern ;;
        Ok (Lookaround optimised_pattern _symbol)
  | AnchorStart => Ok self
  | AnchorEnd => Ok self
  | CharSet _ => Ok self
  | Range from_char to_char =>
      if String.eqb from_char to_char then Ok (SingleChar from_char)
      else Ok self
  | RepeatExactlyN pattern n is_lazy =>
      if is_EmptyNode pattern then Ok EmptyNode
      else if n =? 0 then Ok EmptyNode
      else
        optimised_pattern <- optimised pattern ;;
        if n =? 1 then Ok optimised_pattern
        else Ok (RepeatExactlyN optimised_pattern n is_lazy)
  | RepeatAtLeastN pattern n is_lazy =>
      if is_EmptyNode pattern then Ok EmptyNode
      else
        optimised_pattern <- optimised pattern ;;
        if n =? 0 then Ok (ZeroOrMore optimised_pattern false)
        else if n =? 1 then Ok (OneOrMore optimised_pattern false)
        else Ok (RepeatAtLeastN optimised_pattern n is_lazy)
  | RepeatAtMostN pattern n is_lazy =>
      if is_EmptyNode pattern then Ok EmptyNode
      else if n =? 0 then Ok EmptyNode
      else
        optimised_pattern <- optimised pattern ;;
        if n =? 1 then Ok optimised_pattern
        else Ok (RepeatAtMostN optimised_pattern n is_lazy)
  | RepeatBetweenNM pattern n m is_lazy =>
      if is_EmptyNode pattern then Ok EmptyNode
      else
        optimised_pattern <- optimised pattern ;;
        if n =? m then RepeatExactlyN__init__ optimised_pattern None is_lazy
        else if m =? 0 then Ok EmptyNode
        else if m =? 1 then Ok (Optional optimised_pattern (n =? 0))
        else Ok (RepeatBetweenNM optimised_pattern n m is_lazy)
  end.

(** ** [regex] *)

(** [f"(?:{regex})"]. *)
Definition non_capturing (regex : string) : string := "(?:" ++ regex ++ ")".

(** The tail shared by the quantified and counted nodes: the optional lazy
    mark, then the group when rendered as an atom. *)
Definition finish (regex : string) (is_lazy as_atom : bool) : string :=
  let regex := if is_lazy then regex ++ "?" else regex in
  if as_atom then non_capturing regex else regex.

(** [Alternation.regex(self, as_atom=False, is_root=False)], given the
    rendered options. *)
Definition Alternation_join (rendered : list string) (is_root : bool) : string :=
  let pattern := join "|" rendered in
  if is_root then pattern else non_capturing pattern.

Fixpoint regex (self : RegexNode) (as_atom : bool) : string :=
  match self with
  | EmptyNode => ""
  | Sequence items =>
      let pattern := join "" (map (fun item => regex item false) items) in
      if as_atom then non_capturing pattern else pattern
  | Alternation options =>
      Alternation_join (map (fun option => regex option false) options) false
  | SingleChar char => char
  | OneOrMore pattern is_lazy =>
      if is_EmptyNode pattern then ""
      else finish (regex pattern true ++ "+") is_lazy as_atom
  | ZeroOrMore pattern is_lazy =>
      if is_EmptyNode pattern then ""
      else finish (regex pattern true ++ "*") is_lazy as_atom
  | Optional pattern is_lazy =>
      if is_EmptyNode pattern then ""
      else finish (regex pattern true ++ "?") is_lazy as_atom
  | CapturingGroup pattern => "(" ++ regex pattern false ++ ")"
  | NonCapturingGroup pattern => "(?:" ++ regex pattern false ++ ")"
  | NamedCapturingGroup name pattern =>
      "(?P<" ++ name ++ ">" ++ regex pattern false ++ ")"
  | ModeGroup modifiers pattern =>
      if is_EmptyNode pattern then ""
      else if len_is_0 modifiers then regex pattern as_atom
      else "(?" ++ modifiers ++ ":" ++ regex pattern false ++ ")"
  | IfElseGroup name then_ elsewise =>
      "(?(" ++ name ++ ")" ++ regex then_ false ++ "|" ++ regex elsewise false ++ ")"
  | Lookaround pattern _symbol =>
      "(?" ++ _symbol ++ regex pattern false ++ ")"
  | AnchorStart => "^"
  | AnchorEnd => "$"
  | CharSet options =>
      "[" ++ join "" (map (fun option => regex option false) options) ++ "]"
  | Range from_char to_char => from_char ++ "-" ++ to_char
  | RepeatExactlyN pattern n is_lazy =>
      let regex := regex pattern true in
      if String.eqb regex "" then ""
      else finish (regex ++ "{" ++ str n ++ "}") is_lazy as_atom
  | RepeatAtLeastN pattern n is_lazy =>
      let regex := regex pattern true in
      if String.eqb regex "" then ""
      else finish (regex ++ "{" ++ str n ++ ",}") is_lazy as_atom
  | RepeatAtMostN pattern n is_lazy =>
      let regex := regex pattern true in
      if String.eqb regex "" then ""
      else finish (regex ++ "{," ++ str n ++ "}") is_lazy as_atom
  | RepeatBetweenNM pattern n m is_lazy =>
      let regex := regex pattern true in
      if String.eqb regex "" then ""
      else finish (regex ++ "{" ++ str n ++ "," ++ str m ++ "}") is_lazy as_atom
  end.

(** The entry point with both keyword arguments of [Alternation.regex];
    every other class ignores [is_root] (it does not take it). *)
Definition Alternation_regex (options : list RegexNode) (as_atom is_root : bool) : string :=
  Alternation_join (map (fun option => regex option false) options) is_root.


(** ** The builder layer

    [rebuild/builder.py] is imported by the example programs and is the
    layer that turns their calls into nodes. *)

Module Builder.

Definition backslash : ascii := ascii_of_nat 92.

(** Modelled from the spec: the characters [literally] has to escape, the
    ones that are syntactically special in the pattern language
    ([builder.py] is missing). *)
Definition special : list ascii :=
  backslash :: list_ascii_of_string ".^$*+?{}[]()|".

(** Modelled from the spec: the escaping done by [literally]
    ([builder.py] is missing). *)
Definition escape (c : ascii) : string :=
  if existsb (Ascii.eqb c) special
  then String backslash (String c EmptyString)
  else String c EmptyString.

(** Modelled from the spec: [literally(text)], a Sequence of Single
    Characters matching the text verbatim, special characters escaped
    ([builder.py] is missing). *)
Definition literally (text : string) : RegexNode :=
  Sequence (map (fun c => SingleChar (escape c)) (list_ascii_of_string text)).


(** Modelled from the spec: [digit()], the class of the decimal digits,
    as the escape the documented outputs show: on its own it renders bare,
    and [either] takes it as a member of a merged class ([builder.py] is
    missing). *)
Definition digit : RegexNode := SingleChar "\d".

(** Modelled from the spec: [anything()], the wildcard of the pattern
    language ([builder.py] is missing). *)
Definition anything : RegexNode := SingleChar ".".

(** Modelled from the spec: [letter()], a Character Class matching one
    upper- or lower-case letter ([builder.py] is missing). *)
Definition letter : RegexNode := CharSet [Range "a" "z"; Range "A" "Z"].

(** Modelled from the spec: [one_of(chars)], a Character Class matching
    any one of the characters ([builder.py] is missing). *)
Definition one_of (chars : string) : RegexNode :=
  CharSet (map (fun c => SingleChar (String c EmptyString))
               (list_ascii_of_string chars)).

(** Modelled from the spec: what a sub-pattern that matches one character
    brings into a Character Class: the members of a class, a character or
    a range as it is, the character of a one-character literal; nothing
    for any other sub-pattern ([builder.py] is missing). *)
Definition class_members (pattern : RegexNode) : option (list RegexNode) :=
  match pattern with
  | CharSet options => Some options
  | SingleChar _ | Range _ _ => Some [pattern]
  | Sequence [SingleChar char] => Some [SingleChar char]
  | _ => None
  end.

(** Modelled from the spec: the members of all the sub-patterns, in order,
    when each of them matches one character ([builder.py] is missing). *)
Fixpoint merged_members (options : list RegexNode) : option (list RegexNode) :=
  match options with
  | [] => Some []
  | option :: rest =>
      match class_members option, merged_members rest with
      | Some members, Some others => Some (members ++ others)%list
      | _, _ => None
      end
  end.

(** Modelled from the spec: [either(...)], an Alternation over the
    sub-patterns; where every sub-pattern matches one character, the one
    Character Class of their members, which is what both documented
    outputs show for such a choice ([builder.py] is missing). *)
Definition either (options : list RegexNode) : RegexNode :=
  match merged_members options with
  | Some members => CharSet members
  | None => Alternation options
  end.

(** Modelled from the spec: [optionally(pattern)], a greedy Optional
    wrapping the sub-pattern ([builder.py] is missing). *)
Definition optionally (pattern : RegexNode) : RegexNode := Optional pattern false.

(** Modelled from the spec: [zero_or_more(pattern, greedy=True)], a
    Zero-Or-More wrapping the sub-pattern ([builder.py] is missing). *)
Definition zero_or_more (pattern : RegexNode) (greedy : bool) : RegexNode :=
  ZeroOrMore pattern (negb greedy).

(** Modelled from the spec: [must_end()], an End Anchor ([builder.py] is
    missing). *)
Definition must_end : RegexNode := AnchorEnd.

(** Modelled from the spec: [one_or_more(pattern, greedy=True)], a
    One-Or-More wrapping the sub-pattern ([builder.py] is missing). *)
Definition one_or_more (pattern : RegexNode) (greedy : bool) : RegexNode :=
  OneOrMore pattern (negb greedy).

(** Modelled from the spec: [at_least_n_times(n, pattern)], a
    Repeat-At-Least-N wrapping the sub-pattern ([builder.py] is missing). *)
Definition at_least_n_times (n : Z) (pattern : RegexNode) : RegexNode :=
  RepeatAtLeastN pattern n false.

(** Modelled from the spec: [capture_as(name, pattern)], a Named
    Capturing Group ([builder.py] is missing). *)
Definition capture_as (name : string) (pattern : RegexNode) : RegexNode :=
  NamedCapturingGroup name pattern.

(** Modelled from the spec: the children an operand contributes when an
    append flattens into one Sequence ([builder.py] is missing). *)
Definition items_of (pattern : RegexNode) : list RegexNode :=
  match pattern with
  | Sequence items => items
  | _ => [pattern]
  end.

(** Modelled from the spec: the infix append; chained appends flatten
    into one Sequence ([builder.py] is missing). *)
Definition append (left right : RegexNode) : RegexNode :=
  Sequence (items_of left ++ items_of right).

(** Modelled from the spec: [force_full(pattern)], the sub-pattern with a
    Start Anchor before and an End Anchor after ([builder.py] is
    missing). *)
Definition force_full (pattern : RegexNode) : RegexNode :=
  append (append AnchorStart pattern) AnchorEnd.

Infix "+++" := append (at level 60, right associativity).



(** [pat] of [examples/url.py]. *)
Definition url_pat : RegexNode :=
  force_full
    (capture_as "protocol" (one_or_more letter true)
     +++ literally "://"
     +++ capture_as "domain"
           (one_or_more letter true
            +++ one_or_more (either [letter; literally "."]) true
            +++ at_least_n_times 2 letter)
     +++ optionally (literally ":" +++ capture_as "port" (one_or_more digit true))
     +++ optionally
           (capture_as "path" (literally "/" +++ zero_or_more anything false))
     +++ either [literally "?"; must_end]
     +++ optionally (capture_as "parameters" (zero_or_more anything true))).

(** The text [examples/url.py] documents as generated. *)
Definition url_documented : string :=
  "^(?P<protocol>[a-zA-Z]+)://(?P<domain>[a-zA-Z]+[a-zA-Z\.]+[a-zA-Z]{2,})"
  ++ "(?::(?P<port>\d+))?(?P<path>/.*?)?(?:\?|$)(?P<parameters>.*"
  ++ ")?$".

End Builder.

(** ** Induction over trees

    The children of [Sequence], [Alternation] and [CharSet] sit in a list,
    so the induction hypothesis for them is a [Forall]. *)

Section RegexNode_induction.

Variable P : RegexNode -> Prop.

Hypothesis P_EmptyNode : P EmptyNode.
Hypothesis P_Sequence : forall items, Forall P items -> P (Sequence items).
Hypothesis P_Alternation : forall options, Forall P options -> P (Alternation options).
Hypothesis P_SingleChar : forall char, P (SingleChar char).
Hypothesis P_OneOrMore : forall p l, P p -> P (OneOrMore p l).
Hypothesis P_ZeroOrMore : forall p l, P p -> P (ZeroOrMore p l).
Hypothesis P_Optional : forall p l, P p -> P (Optional p l).
Hypothesis P_CapturingGroup : forall p, P p -> P (CapturingGroup p).
Hypothesis P_NonCapturingGroup : forall p, P p -> P (NonCapturingGroup p).
Hypothesis P_NamedCapturingGroup : forall name p, P p -> P (NamedCapturingGroup name p).
Hypothesis P_ModeGroup : forall modifiers p, P p -> P (ModeGroup modifiers p).
Hypothesis P_IfElseGroup : forall name t e, P t -> P e -> P (IfElseGroup name t e).
Hypothesis P_Lookaround : forall p symbol, P p -> P (Lookaround p symbol).
Hypothesis P_AnchorStart : P AnchorStart.
Hypothesis P_AnchorEnd : P AnchorEnd.
Hypothesis P_CharSet : forall options, Forall P options -> P (CharSet options).
Hypothesis P_Range : forall from_char to_char, P (Range from_char to_char).
Hypothesis P_RepeatExactlyN : forall p n l, P p -> P (RepeatExactlyN p n l).
Hypothesis P_RepeatAtLeastN : forall p n l, P p -> P (RepeatAtLeastN p n l).
Hypothesis P_RepeatAtMostN : forall p n l, P p -> P (RepeatAtMostN p n l).
Hypothesis P_RepeatBetweenNM : forall p n m l, P p -> P (RepeatBetweenNM p n m l).

Fixpoint RegexNode_tree_ind (t : RegexNode) : P t :=
  let children :=
    fix children (ts : list RegexNode) : Forall P ts :=
      match ts with
      | [] => Forall_nil P
      | t' :: rest => Forall_cons t' (RegexNode_tree_ind t') (children rest)
      end in
  match t with
  | EmptyNode => P_EmptyNode
  | Sequence items => P_Sequence items (children items)
  | Alternation options => P_Alternation options (children options)
  | SingleChar char => P_SingleChar char
  | OneOrMore p l => P_OneOrMore p l (RegexNode_tree_ind p)
  | ZeroOrMore p l => P_ZeroOrMore p l (RegexNode_tree_ind p)
  | Optional p l => P_Optional p l (RegexNode_tree_ind p)
  | CapturingGroup p => P_CapturingGroup p (RegexNode_tree_ind p)
  | NonCapturingGroup p => P_NonCapturingGroup p (RegexNode_tree_ind p)
  | NamedCapturingGroup name p => P_NamedCapturingGroup name p (RegexNode_tree_ind p)
  | ModeGroup modifiers p => P_ModeGroup modifiers p (RegexNode_tree_ind p)
  | IfElseGroup name t e =>
      P_IfElseGroup name t e (RegexNode_tree_ind t) (RegexNode_tree_ind e)
  | Lookaround p symbol => P_Lookaround p symbol (RegexNode_tree_ind p)
  | AnchorStart => P_AnchorStart
  | AnchorEnd => P_AnchorEnd
  | CharSet options => P_CharSet options (children options)
  | Range from_char to_char => P_Range from_char to_char
  | RepeatExactlyN p n l => P_RepeatExactlyN p n l (RegexNode_tree_ind p)
  | RepeatAtLeastN p n l => P_RepeatAtLeastN p n l (RegexNode_tree_ind p)
  | RepeatAtMostN p n l => P_RepeatAtMostN p n l (RegexNode_tree_ind p)
  | RepeatBetweenNM p n m l => P_RepeatBetweenNM p n m l (RegexNode_tree_ind p)
  end.

End RegexNode_induction.

(** No [RepeatBetweenNM] with equal bounds around a child other than
    [EmptyNode] occurs in the tree. *)
Fixpoint bounds_differ (t : RegexNode) : bool :=
  match t with
  | EmptyNode | SingleChar _ | AnchorStart | AnchorEnd | Range _ _ => true
  | Sequence items => forallb bounds_differ items
  | Alternation options => forallb bounds_differ options
  | CharSet options => forallb bounds_differ options
  | OneOrMore p _ | ZeroOrMore p _ | Optional p _ => bounds_differ p
  | CapturingGroup p | NonCapturingGroup p => bounds_differ p
  | NamedCapturingGroup _ p | ModeGroup _ p | Lookaround p _ => bounds_differ p
  | IfElseGroup _ t e => bounds_differ t && bounds_differ e
  | RepeatExactlyN p _ _ | RepeatAtLeastN p _ _ | RepeatAtMostN p _ _ =>
      bounds_differ p
  | RepeatBetweenNM p n m _ =>
      bounds_differ p && (is_EmptyNode p || negb (n =? m))
  end.

(** ** Measures and normal forms of trees *)

(** The number of nodes of a tree. *)
Fixpoint size (t : RegexNode) : nat :=
  match t with
  | EmptyNode | SingleChar _ | AnchorStart | AnchorEnd | Range _ _ => 1
  | Sequence items => S (list_sum (map size items))
  | Alternation options => S (list_sum (map size options))
  | CharSet options => S (list_sum (map size options))
  | OneOrMore p _ | ZeroOrMore p _ | Optional p _ => S (size p)
  | CapturingGroup p | NonCapturingGroup p => S (size p)
  | NamedCapturingGroup _ p | ModeGroup _ p | Lookaround p _ => S (size p)
  | IfElseGroup _ t e => S (size t + size e)
  | RepeatExactlyN p _ _ | RepeatAtLeastN p _ _ | RepeatAtMostN p _ _ => S (size p)
  | RepeatBetweenNM p _ _ _ => S (size p)
  end.

(** Nothing is left for a rule of [optimised] to rewrite at the node
    itself, at any depth outside the character classes: no non-capturing
    group, no mode group without modifiers, no counted repeat with a count
    that collapses, no Range with equal bounds, and every Sequence has at
    least two items, none of them [EmptyNode]. *)
Fixpoint collapsed (t : RegexNode) : bool :=
  match t with
  | EmptyNode | SingleChar _ | AnchorStart | AnchorEnd | CharSet _ => true
  | Range from_char to_char => negb (String.eqb from_char to_char)
  | Sequence items =>
      (2 <=? Z.of_nat (List.length items))
      && forallb (fun item => __bool__ item && collapsed item) items
  | Alternation options => forallb collapsed options
  | OneOrMore p _ | ZeroOrMore p _ | Optional p _ => collapsed p
  | CapturingGroup p | NamedCapturingGroup _ p | Lookaround p _ => collapsed p
  | NonCapturingGroup _ => false
  | ModeGroup modifiers p => negb (len_is_0 modifiers) && collapsed p
  | IfElseGroup _ t e => collapsed t && collapsed e
  | RepeatExactlyN p n _ | RepeatAtLeastN p n _ | RepeatAtMostN p n _ =>
      negb (n =? 0) && negb (n =? 1) && collapsed p
  | RepeatBetweenNM p n m _ =>
      negb (n =? m) && negb (m =? 0) && negb (m =? 1) && collapsed p
  end.

(** [optimised] applied [k] times in a row. *)
Fixpoint passes (k : nat) (t : RegexNode) : Result RegexNode :=
  match k with
  | O => Ok t
  | S k' => t' <- optimised t ;; passes k' t'
  end.

(** [k] greedy One-Or-More nodes around [EmptyNode]. *)
Fixpoint tower (k : nat) : RegexNode :=
  match k with
  | O => EmptyNode
  | S k' => OneOrMore (tower k') false
  end.

(** ** The debug tree

    [as_json] builds a structure of [str], [None], [list] and [dict]
    values; a [dict] keeps its keys in insertion order. *)

#[warnings="-register-all"]
Inductive Json : Type :=
| JNone
| JStr (s : string)
| JList (items : list Json)
| JDict (entries : list (string * Json)).

(** [d[key] = value]: an existing key keeps its place. *)
Fixpoint dict_set (d : list (string * Json)) (key : string) (value : Json)
    : list (string * Json) :=
  match d with
  | [] => [(key, value)]
  | (key', value') :: rest =>
      if String.eqb key' key then (key', value) :: rest
      else (key', value') :: dict_set rest key value
  end.

Definition is_lower (c : ascii) : bool :=
  let code := N_of_ascii c in ((97 <=? code) && (code <=? 122))%N.

Definition is_upper (c : ascii) : bool :=
  let code := N_of_ascii c in ((65 <=? code) && (code <=? 90))%N.

Definition to_upper (c : ascii) : ascii :=
  if is_lower c then ascii_of_N (N_of_ascii c - 32) else c.

Definition to_lower (c : ascii) : ascii :=
  if is_upper c then ascii_of_N (N_of_ascii c + 32) else c.

(** [name.replace("_", " ")]. *)
Fixpoint replace_underscores (name : string) : string :=
  match name with
  | EmptyString => EmptyString
  | String c rest =>
      String (if Ascii.eqb c "_" then " "%char else c) (replace_underscores rest)
  end.

(** [str.title()] on ASCII text: a letter that follows a letter is
    lowered, any other letter is raised. *)
Fixpoint title_from (previous_is_cased : bool) (s : string) : string :=
  match s with
  | EmptyString => EmptyString
  | String c rest =>
      if is_lower c || is_upper c
      then String (if previous_is_cased then to_lower c else to_upper c)
                  (title_from true rest)
      else String c (title_from false rest)
  end.

Definition title (s : string) : string := title_from false s.

(** [prettify_varname], local to [as_json]. *)
Definition prettify_varname (name : string) : string :=
  title (replace_underscores name).

(** [re.sub(r"(?<=[a-z])([A-Z])", r" \1", name)], scanning with the
    character before the current one. *)
Fixpoint sub_lower_upper (previous : option ascii) (name : string) : string :=
  match name with
  | EmptyString => EmptyString
  | String c rest =>
      let tail := String c (sub_lower_upper (Some c) rest) in
      match previous with
      | Some p => if is_lower p && is_upper c then String " " tail else tail
      | None => tail
      end
  end.

(** [prettify_classname], local to [as_json]. *)
Definition prettify_classname (name : string) : string :=
  sub_lower_upper None name.

Definition quote : string := String (ascii_of_nat 34) EmptyString.

(** [json_for(value)] for a [str]: the text between double quotes. *)
Definition json_for_str (value : string) : Json := JStr (quote ++ value ++ quote).

(** [json_for(value)] for an [int]: [str(value)]. *)
Definition json_for_int (value : Z) : Json := JStr (str value).

(** [json_for(value)] for a [bool]: [str(value)]. *)
Definition json_for_bool (value : bool) : Json :=
  JStr (if value then "True" else "False").

(** [json_for(value)] for a node, given [value.as_json()]. *)
Definition json_for_node (value : RegexNode) (value_as_json : Json) : Json :=
  if is_EmptyNode value then JNone else value_as_json.

(** One round of the loop over the fields of a node with several fields. *)
Definition add_field (subtree : list (string * Json)) (field : string * Json)
    : list (string * Json) :=
  let (name, value_json) := field in
  match value_json with
  | JNone => dict_set subtree (prettify_varname name ++ ": ---") JNone
  | JStr s => dict_set subtree (prettify_varname name ++ ": " ++ s) JNone
  | _ => dict_set subtree (prettify_varname name) value_json
  end.

(** The body of [RegexNode.as_json] after the fields are found: [fields]
    holds, in the order of [vars(self)], the public fields and
    [json_for] of their values. *)
Definition as_json_of (class_name : string) (fields : list (string * Json)) : Json :=
  let name := prettify_classname class_name in
  match fields with
  | [] => JStr name
  | [(_, subtree)] =>
      match subtree with
      | JStr s => JStr (name ++ ": " ++ s)
      | _ => JDict [(name, subtree)]
      end
  | _ => JDict [(name, JDict (fold_left add_field fields []))]
  end.

Section Debug.

(** [self.__class__.__name__] of a [Lookaround] node, given its pattern and
    symbol: Lookaround for a direct instance (as [optimised] builds them),
    the name of the subclass for a Lookahead, NegativeLookahead, Lookbehind
    or NegativeLookbehind. *)
Variable Lookaround__name__ : RegexNode -> string -> string.

(** [self.__class__.__name__]. *)
Definition __name__ (self : RegexNode) : string :=
  match self with
  | EmptyNode => "EmptyNode"
  | Sequence _ => "Sequence"
  | Alternation _ => "Alternation"
  | SingleChar _ => "SingleChar"
  | OneOrMore _ _ => "OneOrMore"
  | ZeroOrMore _ _ => "ZeroOrMore"
  | Optional _ _ => "Optional"
  | CapturingGroup _ => "CapturingGroup"
  | NonCapturingGroup _ => "NonCapturingGroup"
  | NamedCapturingGroup _ _ => "NamedCapturingGroup"
  | ModeGroup _ _ => "ModeGroup"
  | IfElseGroup _ _ _ => "IfElseGroup"
  | Lookaround pattern _symbol => Lookaround__name__ pattern _symbol
  | AnchorStart => "AnchorStart"
  | AnchorEnd => "AnchorEnd"
  | CharSet _ => "CharSet"
  | Range _ _ => "Range"
  | RepeatExactlyN _ _ _ => "RepeatExactlyN"
  | RepeatAtLeastN _ _ _ => "RepeatAtLeastN"
  | RepeatAtMostN _ _ _ => "RepeatAtMostN"
  | RepeatBetweenNM _ _ _ _ => "RepeatBetweenNM"
  end.

(** [as_json]: [EmptyNode] overrides it; every other class lists its
    public fields in the order its [__init__] assigns them. *)
Fixpoint as_json (self : RegexNode) : Json :=
  let node := fun value => json_for_node value (as_json value) in
  let nodes := fun values =>
    JList (map (fun value => json_for_node value (as_json value)) values) in
  match self with
  | EmptyNode => JStr "Empty"
  | Sequence items => as_json_of (__name__ self) [("items", nodes items)]
  | Alternation options => as_json_of (__name__ self) [("options", nodes options)]
  | SingleChar char => as_json_of (__name__ self) [("char", json_for_str char)]
  | OneOrMore pattern is_lazy | ZeroOrMore pattern is_lazy | Optional pattern is_lazy =>
      as_json_of (__name__ self)
        [("is_lazy", json_for_bool is_lazy); ("pattern", node pattern)]
  | CapturingGroup pattern | NonCapturingGroup pattern =>
      as_json_of (__name__ self) [("pattern", node pattern)]
  | NamedCapturingGroup name pattern =>
      as_json_of (__name__ self)
        [("name", json_for_str name); ("pattern", node pattern)]
  | ModeGroup modifiers pattern =>
      as_json_of (__name__ self)
        [("modifiers", json_for_str modifiers); ("pattern", node pattern)]
  | IfElseGroup name then_ elsewise =>
      as_json_of (__name__ self)
        [("name", json_for_str name); ("then", node then_);
         ("elsewise", node elsewise)]
  | Lookaround pattern _ => as_json_of (__name__ self) [("pattern", node pattern)]
  | AnchorStart | AnchorEnd => as_json_of (__name__ self) []
  | CharSet options => as_json_of (__name__ self) [("options", nodes options)]
  | Range from_char to_char =>
      as_json_of (__name__ self)
        [("from_char", json_for_str from_char); ("to_char", json_for_str to_char)]
  | RepeatExactlyN pattern n is_lazy | RepeatAtLeastN pattern n is_lazy
  | RepeatAtMostN pattern n is_lazy =>
      as_json_of (__name__ self)
        [("pattern", node pattern); ("n", json_for_int n);
         ("is_lazy", json_for_bool is_lazy)]
  | RepeatBetweenNM pattern n m is_lazy =>
      as_json_of (__name__ self)
        [("pattern", node pattern); ("n", json_for_int n); ("m", json_for_int m);
         ("is_lazy", json_for_bool is_lazy)]
  end.

End Debug.

(** ["|   " * depth]. *)
Fixpoint indentation (depth : nat) : string :=
  match depth with
  | O => EmptyString
  | S depth' => "|   " ++ indentation depth'
  end.

(** The test that ends the visit of a [dict] entry after its name. *)
Definition no_subtree (subtree : Json) : bool :=
  match subtree with
  | JStr s => len_is_0 s
  | JNone => true
  | _ => false
  end.

(** [str(tree)] for a tree that is neither a [list] nor a [dict]. *)
Definition str_leaf (tree : Json) : string :=
  match tree with
  | JStr s => s
  | _ => "None"
  end.

(** [_ipretty_tree]: the lines the generator yields, in order. *)
Fixpoint _ipretty_tree (tree : Json) (depth : nat) : list string :=
  match tree with
  | JList items => flat_map (fun item => _ipretty_tree item depth) items
  | JDict entries =>
      flat_map
        (fun entry =>
           match entry with
           | (name, subtree) =>
               (indentation depth ++ name)
               :: (if no_subtree subtree then []
                   else _ipretty_tree subtree (S depth))
           end)
        entries
  | _ => [indentation depth ++ str_leaf tree]
  end.

(** [_print_pretty_tree]: the text of each [print] call is added to the
    output, which is threaded through the calls.  The output is the list
    of these texts, one entry a call, also for a text that holds a line
    break. *)
Fixpoint _print_pretty_tree (tree : Json) (depth : nat) (stdout : list string)
    : list string :=
  match tree with
  | JList items =>
      fold_left (fun (stdout : list string) item =>
                   _print_pretty_tree item depth stdout)
                items stdout
  | JDict entries =>
      fold_left
        (fun (stdout : list string) entry =>
           match entry with
           | (name, subtree) =>
               let stdout := List.app stdout [indentation depth ++ name] in
               if no_subtree subtree then stdout
               else _print_pretty_tree subtree (S depth) stdout
           end)
        entries stdout
  | _ => List.app stdout [indentation depth ++ str_leaf tree]
  end.

(** [pretty_print]: the texts of its [print] calls, in order. *)
Definition pretty_print (Lookaround__name__ : RegexNode -> string -> string)
    (self : RegexNode) : list string :=
  let tree := as_json Lookaround__name__ self in
  _print_pretty_tree tree 0 [].

(** The name a node is displayed under: the class name with its words set
    apart, Empty for [EmptyNode]. *)
Definition label (Lookaround__name__ : RegexNode -> string -> string)
    (self : RegexNode) : string :=
  match self with
  | EmptyNode => "Empty"
  | _ => prettify_classname (__name__ Lookaround__name__ self)
  end.

(** A text with its spaces taken out. *)
Fixpoint without_spaces (s : string) : string :=
  match s with
  | EmptyString => EmptyString
  | String c rest =>
      if Ascii.eqb c " " then without_spaces rest
      else String c (without_spaces rest)
  end.

(** Induction over debug trees: the hypothesis for a [list] or a [dict]
    covers every value it holds. *)

Section Json_induction.

Variable P : Json -> Prop.

Hypothesis P_JNone : P JNone.
Hypothesis P_JStr : forall s, P (JStr s).
Hypothesis P_JList : forall items, Forall P items -> P (JList items).
Hypothesis P_JDict :
  forall entries, Forall (fun entry => P (snd entry)) entries -> P (JDict entries).

Fixpoint Json_tree_ind (tree : Json) : P tree :=
  match tree with
  | JNone => P_JNone
  | JStr s => P_JStr s
  | JList items =>
      P_JList items
        ((fix values (l : list Json) : Forall P l :=
            match l with
            | [] => Forall_nil P
            | item :: rest => Forall_cons item (Json_tree_ind item) (values rest)
            end) items)
  | JDict entries =>
      P_JDict entries
        ((fix values (l : list (string * Json))
            : Forall (fun entry => P (snd entry)) l :=
            match l with
            | [] => Forall_nil _
            | (name, subtree) :: rest =>
                Forall_cons (name, subtree) (Json_tree_ind subtree) (values rest)
            end) entries)
  end.

End Json_induction.

(** ** Lemmas on the primitives *)

Lemma comprehension_Ok {A B : Type} (f : A -> Result B) (xs : list A) (ys : list B) :
  comprehension f xs = Ok ys <-> Forall2 (fun x y => f x = Ok y) xs ys.
Proof.
  revert ys. induction xs as [|x rest IH]; intros ys; simpl.
  - split.
    + intros H. injection H as <-. constructor.
    + intros H. inversion H. reflexivity.
  - split.
    + destruct (f x) as [y|e] eqn:Hx; [|discriminate].
      destruct (comprehension f rest) as [ys'|e] eqn:Hrest; [|discriminate].
      intros H. injection H as <-. constructor; [exact Hx|].
      apply IH. reflexivity.
    + intros H. inversion H as [|x' y xs' ys' Hx Hrest]; subst.
      rewrite Hx. apply IH in Hrest. rewrite Hrest. reflexivity.
Qed.

Lemma comprehension_total {A B : Type} (f : A -> Result B) (xs : list A) :
  Forall (fun x => exists y, f x = Ok y) xs ->
  exists ys, comprehension f xs = Ok ys.
Proof.
  induction 1 as [|x rest [y Hy] _ [ys Hys]]; simpl.
  - exists []. reflexivity.
  - rewrite Hy, Hys. exists (y :: ys). reflexivity.
Qed.

Lemma is_EmptyNode_true (t : RegexNode) : is_EmptyNode t = true <-> t = EmptyNode.
Proof. destruct t; simpl; split; intros H; try reflexivity; discriminate. Qed.

Lemma is_EmptyNode_false (t : RegexNode) : is_EmptyNode t = false <-> t <> EmptyNode.
Proof.
  destruct t; simpl; split; intros H; try reflexivity; try discriminate.
  contradiction H. reflexivity.
Qed.

Lemma __bool___is_EmptyNode (t : RegexNode) : __bool__ t = negb (is_EmptyNode t).
Proof. destruct t; reflexivity. Qed.

(** With the equal-bounds case of [RepeatBetweenNM] out of the way,
    [optimised] returns a tree. *)
Lemma optimised_returns (t : RegexNode) :
  bounds_differ t = true -> exists t', optimised t = Ok t'.
Proof.
  induction t as
    [ | items IH | options IH | char | p l IH | p l IH | p l IH | p IH | p IH
    | name p IH | modifiers p IH | name t e IHt IHe | p symbol IH | | 
    | options IH | from_char to_char | p n l IH | p n l IH | p n l IH
    | p n m l IH ] using RegexNode_tree_ind; simpl; intros Hb;
    try (eexists; reflexivity).
  - assert (Hall : Forall (fun x => exists y, optimised x = Ok y) items).
    { rewrite forallb_forall in Hb. rewrite Forall_forall in *. auto. }
    destruct (comprehension_total _ _ Hall) as [ys ->]. simpl.
    destruct (filter __bool__ ys) as [|a [|b rest]]; eexists; reflexivity.
  - assert (Hall : Forall (fun x => exists y, optimised x = Ok y) options).
    { rewrite forallb_forall in Hb. rewrite Forall_forall in *. auto. }
    destruct (comprehension_total _ _ Hall) as [ys ->]. simpl.
    eexists; reflexivity.
  - destruct (is_EmptyNode p); [eexists; reflexivity|].
    destruct (IH Hb) as [p' ->]. eexists; reflexivity.
  - destruct (is_EmptyNode p); [eexists; reflexivity|].
    destruct (IH Hb) as [p' ->]. eexists; reflexivity.
  - destruct (is_EmptyNode p); [eexists; reflexivity|].
    destruct (IH Hb) as [p' ->]. eexists; reflexivity.
  - destruct (IH Hb) as [p' ->]. eexists; reflexivity.
  - exact (IH Hb).
  - destruct (IH Hb) as [p' ->]. eexists; reflexivity.
  - destruct (is_EmptyNode p); [eexists; reflexivity|].
    destruct (IH Hb) as [p' Hp']. rewrite Hp'.
    destruct (len_is_0 modifiers); eexists; reflexivity.
  - apply andb_true_iff in Hb as [Ht He].
    destruct (is_EmptyNode t && is_EmptyNode e); [eexists; reflexivity|].
    destruct (IHt Ht) as [t' ->]. destruct (IHe He) as [e' ->].
    eexists; reflexivity.
  - destruct (is_EmptyNode p); [eexists; reflexivity|].
    destruct (IH Hb) as [p' ->]. eexists; reflexivity.
  - destruct (String.eqb from_char to_char); eexists; reflexivity.
  - destruct (is_EmptyNode p); [eexists; reflexivity|].
    destruct (n =? 0); [eexists; reflexivity|].
    destruct (IH Hb) as [p' ->]. simpl. destruct (n =? 1); eexists; reflexivity.
  - destruct (is_EmptyNode p); [eexists; reflexivity|].
    destruct (IH Hb) as [p' ->]. simpl.
    destruct (n =? 0); [eexists; reflexivity|].
    destruct (n =? 1); eexists; reflexivity.
  - destruct (is_EmptyNode p); [eexists; reflexivity|].
    destruct (n =? 0); [eexists; reflexivity|].
    destruct (IH Hb) as [p' ->]. simpl. destruct (n =? 1); eexists; reflexivity.
  - apply andb_true_iff in Hb as [Hp Hnm].
    destruct (is_EmptyNode p); [eexists; reflexivity|].
    simpl in Hnm. apply negb_true_iff in Hnm.
    destruct (IH Hp) as [p' ->]. simpl. rewrite Hnm.
    destruct (m =? 0); [eexists; reflexivity|].
    destruct (m =? 1); eexists; reflexivity.
Qed.

(** The equal-bounds case itself: the child is simplified first, then the
    call that builds the [RepeatExactlyN] leaves out the count. *)
Lemma equal_bounds_raise (p p' : RegexNode) (n : Z) (is_lazy : bool) :
  p <> EmptyNode ->
  optimised p = Ok p' ->
  optimised (RepeatBetweenNM p n n is_lazy)
  = Raise (TypeError_missing_argument "RepeatExactlyN.__init__" "n").
Proof.
  intros Hp Hopt. apply is_EmptyNode_false in Hp.
  simpl. rewrite Hp, Hopt. simpl. rewrite Z.eqb_refl. reflexivity.
Qed.

Lemma append_assoc (a b c : string) : (a ++ b) ++ c = a ++ b ++ c.
Proof. induction a as [|x a IH]; simpl; [reflexivity | rewrite IH; reflexivity]. Qed.

Lemma finish_eq (regex : string) (is_lazy as_atom : bool) :
  finish regex is_lazy as_atom =
  let body := regex ++ (if is_lazy then "?" else "") in
  if as_atom then "(?:" ++ body ++ ")" else body.
Proof.
  unfold finish, non_capturing. destruct is_lazy; simpl; [reflexivity|].
  assert (H : regex ++ "" = regex).
  { clear. induction regex as [|x r IH]; simpl; [reflexivity | rewrite IH; reflexivity]. }
  rewrite H. reflexivity.
Qed.

(** ** Counted repeats with equal bounds *)

(** C1. Simplifying Repeat-Between(P, n, n) should render like simplifying
    Repeat-Exactly(P, n).  At P = the character a and n = 2 the code does
    not get that far: simplifying the Repeat-Exactly gives a tree that
    renders as a{2}, while simplifying the Repeat-Between raises, because
    the call building the Repeat-Exactly node is made without the count. *)
Theorem RepeatBetweenNM_equal_bounds_raises :
  optimised (RepeatExactlyN (SingleChar "a") 2 false)
    = Ok (RepeatExactlyN (SingleChar "a") 2 false)
  /\ regex (RepeatExactlyN (SingleChar "a") 2 false) false = "a{2}"
  /\ optimised (RepeatBetweenNM (SingleChar "a") 2 2 false)
     = Raise (TypeError_missing_argument "RepeatExactlyN.__init__" "n")
  /\ forall t, optimised (RepeatBetweenNM (SingleChar "a") 2 2 false) <> Ok t.
Proof.
  assert (H : optimised (RepeatBetweenNM (SingleChar "a") 2 2 false)
              = Raise (TypeError_missing_argument "RepeatExactlyN.__init__" "n")).
  { apply equal_bounds_raise with (p' := SingleChar "a");
      [discriminate | reflexivity]. }
  repeat split; try reflexivity; try exact H.
  intros t Ht. rewrite H in Ht. discriminate.
Qed.

(** ** Totality *)

(** C2. Simplification is not total on well-formed trees: a Sequence that
    holds a Repeat-Between with equal bounds 3 and 3 renders without error,
    but simplifying it raises instead of returning a tree. *)
Theorem optimised_raises_inside_Sequence :
  let tree := Sequence [SingleChar "x"; RepeatBetweenNM (SingleChar "a") 3 3 true] in
  __bool__ tree = true
  /\ regex tree false = "xa{3,3}?"
  /\ forall t, optimised tree <> Ok t.
Proof.
  cbv zeta. repeat split.
  intros t Ht. vm_compute in Ht. discriminate.
Qed.

(** ** The email example *)

Module Email.
Import Builder.

(** The choice among a digit, a letter and five characters is one class,
    with the members of the three in order. *)
Lemma name_options_merge :
  either [digit; letter; one_of "._%+-"]
  = CharSet [SingleChar "\d"; Range "a" "z"; Range "A" "Z"; SingleChar ".";
             SingleChar "_"; SingleChar "%"; SingleChar "+"; SingleChar "-"].
Proof. reflexivity. Qed.

(** A choice with a sub-pattern that matches no single character, such
    as the end anchor, stays an Alternation. *)
Lemma either_with_anchor (pattern : RegexNode) :
  either [pattern; must_end] = Alternation [pattern; must_end].
Proof.
  unfold either. simpl. destruct (class_members pattern); reflexivity.
Qed.

(** The same builder functions give the documented text of the other
    example program. *)
Lemma url_regex : regex url_pat false = url_documented.
Proof. vm_compute. reflexivity. Qed.


End Email.

(** ** Quantifiers *)

(** C4, as stated, fails: a Sequence without children renders to empty
    text, yet One-Or-More, Zero-Or-More and Optional around it do not (nor
    does a counted repeat, which tests the atomic render of its child). *)
Lemma quantifier_of_empty_render_not_empty :
  regex (Sequence []) false = ""
  /\ regex (OneOrMore (Sequence []) false) false = "(?:)+"
  /\ regex (ZeroOrMore (Sequence []) false) false = "(?:)*"
  /\ regex (Optional (Sequence []) false) false = "(?:)?"
  /\ regex (RepeatExactlyN (Sequence []) 2 false) false = "(?:){2}"
  /\ ~ (forall child is_lazy as_atom,
          regex child false = "" -> regex (OneOrMore child is_lazy) as_atom = "").
Proof.
  repeat split.
  intros H. specialize (H (Sequence []) false false eq_refl). discriminate H.
Qed.

(** C4, amended. A One-Or-More, Zero-Or-More or Optional whose child is
    the Empty node renders to empty text; around a child whose atomic
    render is not empty (a Sequence without children is one: its atomic
    render is the empty group) it renders as the child's atomic render
    followed by +, * or ? respectively, plus an extra ? when lazy, the
    whole wrapped in a non-capturing group when requested as an atom. *)
Theorem quantifier_regex (child : RegexNode) (is_lazy as_atom : bool) :
  let quantified suffix :=
    let body := regex child true ++ suffix ++ (if is_lazy then "?" else "") in
    if as_atom then "(?:" ++ body ++ ")" else body in
  regex (OneOrMore EmptyNode is_lazy) as_atom = ""
  /\ regex (ZeroOrMore EmptyNode is_lazy) as_atom = ""
  /\ regex (Optional EmptyNode is_lazy) as_atom = ""
  /\ (regex child true <> "" ->
      regex (OneOrMore child is_lazy) as_atom = quantified "+"
      /\ regex (ZeroOrMore child is_lazy) as_atom = quantified "*"
      /\ regex (Optional child is_lazy) as_atom = quantified "?").
Proof.
  cbv zeta. split; [reflexivity|]. split; [reflexivity|].
  split; [reflexivity|]. intros Hrender.
  assert (Hchild : is_EmptyNode child = false).
  { apply is_EmptyNode_false. intros ->. apply Hrender. reflexivity. }
  repeat split; simpl; rewrite Hchild, finish_eq; cbv zeta;
    destruct as_atom, is_lazy; simpl; rewrite ?append_assoc; reflexivity.
Qed.

Lemma quantifier_regex_witness :
  regex (Sequence []) true <> ""
  /\ regex (OneOrMore (Sequence []) true) true = "(?:(?:)+?)"
  /\ regex (ZeroOrMore (Sequence []) true) true = "(?:(?:)*?)"
  /\ regex (Optional (Sequence []) true) true = "(?:(?:)??)".
Proof.
  split; [discriminate|].
  apply (quantifier_regex (Sequence []) true true). discriminate.
Defined.

(** C5, as stated, fails: with the atom flag set the render is not the
    group followed by +, the whole is wrapped once more. *)
Lemma OneOrMore_atom_not_single_group :
  regex (OneOrMore (Sequence [SingleChar "a"; SingleChar "b"]) false) true
  <> "(?:ab)+".
Proof. apply String.eqb_neq. vm_compute. reflexivity. Qed.

(** C5, amended. Rendering One-Or-More(Sequence([charA, charB])) without
    the atom flag yields a non-capturing group around the two characters
    followed by +; with the atom flag set that text is wrapped in a further
    non-capturing group.  For the characters a and b: (?:ab)+ and
    (?:(?:ab)+). *)
Theorem OneOrMore_Sequence_regex (charA charB : string) :
  let node := OneOrMore (Sequence [SingleChar charA; SingleChar charB]) false in
  regex node false = "(?:" ++ charA ++ charB ++ ")+"
  /\ regex node true = "(?:(?:" ++ charA ++ charB ++ ")+)"
  /\ regex (OneOrMore (Sequence [SingleChar "a"; SingleChar "b"]) false) false
     = "(?:ab)+"
  /\ regex (OneOrMore (Sequence [SingleChar "a"; SingleChar "b"]) false) true
     = "(?:(?:ab)+)".
Proof.
  cbv zeta. repeat split; simpl; unfold finish, non_capturing, join; simpl;
    rewrite ?append_assoc; simpl; rewrite ?append_assoc; reflexivity.
Qed.

(** ** Groups *)

(** C6. Simplifying Non-Capturing-Group(P) is simplifying P: the result is
    the same tree (and the same exception when simplifying P raises), so
    the simplified forms render identically; rendering the un-simplified
    group gives (?: then P's non-atomic render then a closing parenthesis,
    whatever the atom flag. *)
Theorem NonCapturingGroup_transparent (P : RegexNode) :
  optimised (NonCapturingGroup P) = optimised P
  /\ (forall t as_atom,
        optimised P = Ok t ->
        exists t', optimised (NonCapturingGroup P) = Ok t'
                   /\ t' = t /\ regex t' as_atom = regex t as_atom)
  /\ forall as_atom,
       regex (NonCapturingGroup P) as_atom = "(?:" ++ regex P false ++ ")".
Proof.
  split; [reflexivity|]. split; [|reflexivity].
  intros t as_atom Ht. exists t. simpl. auto.
Qed.

Lemma NonCapturingGroup_transparent_witness :
  optimised (RepeatExactlyN (SingleChar "a") 1 false) = Ok (SingleChar "a")
  /\ optimised (NonCapturingGroup (RepeatExactlyN (SingleChar "a") 1 false))
     = Ok (SingleChar "a")
  /\ regex (NonCapturingGroup (RepeatExactlyN (SingleChar "a") 1 false)) true
     = "(?:a{1})".
Proof.
  destruct (NonCapturingGroup_transparent (RepeatExactlyN (SingleChar "a") 1 false))
    as [Heq [_ Hregex]].
  split; [reflexivity|]. split; [rewrite Heq; reflexivity | apply Hregex].
Defined.

(** ** Alternation *)

(** C7. Simplifying an Alternation should return the Alternation of its
    simplified children.  For the Alternation of the character x and a
    Repeat-Between of the character a with bounds 2 and 2, which renders
    as (?:x|a{2,2}) and at the root as x|a{2,2}, it returns nothing:
    simplifying the second child raises, for the count left out of the
    call that builds the Repeat-Exactly, and the exception ends the
    simplification of the Alternation. *)
Theorem Alternation_option_raises :
  let options := [SingleChar "x"; RepeatBetweenNM (SingleChar "a") 2 2 false] in
  regex (Alternation options) false = "(?:x|a{2,2})"
  /\ Alternation_regex options false true = "x|a{2,2}"
  /\ optimised (Alternation options)
     = Raise (TypeError_missing_argument "RepeatExactlyN.__init__" "n")
  /\ forall t, optimised (Alternation options) <> Ok t.
Proof.
  cbv zeta. repeat split.
  intros t Ht. vm_compute in Ht. discriminate.
Qed.

(** ** Repeat-Between with upper bound 1 *)

(** C8. Simplifying Repeat-Between(P, n, 1) with n other than 1 should
    return an Optional around the simplified P.  For P the Repeat-Between
    of the character a with bounds 2 and 2, which is not the Empty node,
    and n = 0, it returns nothing: P is simplified before the bounds of
    the outer repeat are looked at, and simplifying P raises for the
    count left out of the call that builds the Repeat-Exactly. *)
Theorem RepeatBetweenNM_upper_1_child_raises :
  let P := RepeatBetweenNM (SingleChar "a") 2 2 false in
  P <> EmptyNode
  /\ regex (RepeatBetweenNM P 0 1 false) false = "(?:a{2,2}){0,1}"
  /\ optimised (RepeatBetweenNM P 0 1 false)
     = Raise (TypeError_missing_argument "RepeatExactlyN.__init__" "n")
  /\ forall t, optimised (RepeatBetweenNM P 0 1 false) <> Ok t.
Proof.
  cbv zeta. split; [discriminate|]. repeat split.
  intros t Ht. vm_compute in Ht. discriminate.
Qed.

(** ** Truthiness *)

(** C9. A node is falsy exactly when it is the Empty node; a Sequence
    without items, an Alternation without options and a quantifier around
    Empty are truthy.  Consequently, when the items of a Sequence simplify
    to items', the survivors are the members of items' other than Empty,
    in order, and the Sequence simplifies to Empty, the one survivor or
    the Sequence of the survivors. *)
Theorem falsy_iff_EmptyNode :
  (forall t, __bool__ t = false <-> t = EmptyNode)
  /\ __bool__ (Sequence []) = true
  /\ __bool__ (Alternation []) = true
  /\ (forall is_lazy,
        __bool__ (OneOrMore EmptyNode is_lazy) = true
        /\ __bool__ (ZeroOrMore EmptyNode is_lazy) = true
        /\ __bool__ (Optional EmptyNode is_lazy) = true)
  /\ forall items items',
       Forall2 (fun i i' => optimised i = Ok i') items items' ->
       exists survivors,
         survivors = filter (fun i' => negb (is_EmptyNode i')) items'
         /\ (forall i', In i' survivors <-> In i' items' /\ i' <> EmptyNode)
         /\ optimised (Sequence items)
            = Ok match survivors with
                 | [] => EmptyNode
                 | [only] => only
                 | _ => Sequence survivors
                 end.
Proof.
  split; [|repeat split].
  - intros t. destruct t; simpl; split; intros H; try reflexivity; discriminate.
  - intros items items' H. apply comprehension_Ok in H.
    exists (filter (fun i' => negb (is_EmptyNode i')) items').
    split; [reflexivity|]. split.
    + intros i'. rewrite filter_In, negb_true_iff, is_EmptyNode_false. reflexivity.
    + simpl. rewrite H. simpl.
      rewrite (filter_ext __bool__ (fun i' => negb (is_EmptyNode i')))
        by apply __bool___is_EmptyNode.
      destruct (filter _ items') as [|a [|b rest]]; reflexivity.
Qed.

Lemma falsy_iff_EmptyNode_witness :
  optimised (Sequence [EmptyNode; Sequence []; SingleChar "a"; OneOrMore EmptyNode true])
  = Ok (SingleChar "a")
  /\ optimised (Sequence [Alternation []; Optional (Sequence []) false; EmptyNode])
     = Ok (Sequence [Alternation []; Optional EmptyNode false]).
Proof.
  destruct falsy_iff_EmptyNode as [_ [_ [_ [_ Hseq]]]].
  split.
  - destruct (Hseq [EmptyNode; Sequence []; SingleChar "a"; OneOrMore EmptyNode true]
                   [EmptyNode; EmptyNode; SingleChar "a"; EmptyNode])
      as [survivors [-> [_ H]]]; [repeat constructor | exact H].
  - destruct (Hseq [Alternation []; Optional (Sequence []) false; EmptyNode]
                   [Alternation []; Optional EmptyNode false; EmptyNode])
      as [survivors [-> [_ H]]]; [repeat constructor | exact H].
Defined.

(** ** Character classes *)

(** C10. Simplifying a Character Class returns the same tree, its members
    untouched: a Range with equal bounds inside a class is still there
    after simplification and the class renders it in range form, while
    simplifying the same Range on its own gives the Single Character. *)
Theorem CharSet_optimised_identity (options : list RegexNode) (c : string) :
  optimised (CharSet options) = Ok (CharSet options)
  /\ optimised (Range c c) = Ok (SingleChar c)
  /\ optimised (CharSet [Range c c]) = Ok (CharSet [Range c c])
  /\ (forall as_atom,
        regex (CharSet [Range c c]) as_atom = "[" ++ c ++ "-" ++ c ++ "]"
        /\ regex (SingleChar c) as_atom = c)
  /\ regex (CharSet [Range "a" "a"]) false = "[a-a]".
Proof.
  split; [reflexivity|]. split; [simpl; rewrite String.eqb_refl; reflexivity|].
  split; [reflexivity|]. split; [|reflexivity].
  intros as_atom. split; [|reflexivity].
  simpl. unfold join. simpl. rewrite !append_assoc. reflexivity.
Qed.

(** * Further properties of the module *)

(** ** Lemmas on strings *)

Lemma append_empty_r (a : string) : a ++ "" = a.
Proof. induction a as [|x a IH]; simpl; [reflexivity | rewrite IH; reflexivity]. Qed.

Lemma append_eq_empty (a b : string) : a ++ b = "" -> a = "" /\ b = "".
Proof. destruct a; simpl; intros H; [split; [reflexivity | exact H] | discriminate]. Qed.

Lemma finish_empty (regex : string) (is_lazy as_atom : bool) :
  finish regex is_lazy as_atom = "" -> regex = "".
Proof.
  unfold finish, non_capturing. destruct as_atom; [discriminate|].
  destruct is_lazy; [|trivial]. intros H. apply append_eq_empty in H as [H _].
  exact H.
Qed.

Lemma finish_atom (regex : string) (is_lazy : bool) :
  finish regex is_lazy true = "(?:" ++ finish regex is_lazy false ++ ")".
Proof. reflexivity. Qed.

Lemma join_empty_app (xs ys : list string) :
  join "" (xs ++ ys) = join "" xs ++ join "" ys.
Proof.
  unfold join. induction xs as [|x xs IH]; [reflexivity|].
  change ((x :: xs) ++ ys)%list with (x :: (xs ++ ys))%list.
  assert (Hcons : forall l, String.concat "" (x :: l) = x ++ String.concat "" l).
  { intros [|y l]; simpl; [rewrite append_empty_r|]; reflexivity. }
  rewrite !Hcons, IH, append_assoc. reflexivity.
Qed.

(** ** Rendering *)

(** X1. Asking for an atom changes the text of no node by more than one
    enclosing non-capturing group: the atomic render is the plain render,
    or the plain render inside such a group. *)
Theorem regex_atom_wraps_at_most_once (t : RegexNode) :
  regex t true = regex t false
  \/ regex t true = "(?:" ++ regex t false ++ ")".
Proof.
  induction t as
    [ | items IH | options IH | char | p l IH | p l IH | p l IH | p IH | p IH
    | name p IH | modifiers p IH | name t e IHt IHe | p symbol IH | |
    | options IH | from_char to_char | p n l IH | p n l IH | p n l IH
    | p n m l IH ] using RegexNode_tree_ind; simpl;
    try (left; reflexivity);
    try (destruct (is_EmptyNode p); [left; reflexivity | right; apply finish_atom]);
    try (destruct (String.eqb (regex p true) "");
         [left; reflexivity | right; apply finish_atom]).
  - right. reflexivity.
  - destruct (is_EmptyNode p); [left; reflexivity|].
    destruct (len_is_0 modifiers); [exact IH | left; reflexivity].
Qed.

(** X2. A One-Or-More, Zero-Or-More or Optional renders to empty text
    exactly when its child is the Empty node; a child that merely renders
    empty still leaves the suffix behind. *)
Theorem quantifier_regex_empty_iff (child : RegexNode) (is_lazy as_atom : bool) :
  (regex (OneOrMore child is_lazy) as_atom = "" <-> child = EmptyNode)
  /\ (regex (ZeroOrMore child is_lazy) as_atom = "" <-> child = EmptyNode)
  /\ (regex (Optional child is_lazy) as_atom = "" <-> child = EmptyNode).
Proof.
  repeat split; try (intros ->; reflexivity); simpl;
    destruct (is_EmptyNode child) eqn:Hchild;
    try (intros _; apply is_EmptyNode_true; exact Hchild);
    intros H; apply finish_empty in H; apply append_eq_empty in H as [_ H];
    discriminate H.
Qed.

(** X3. A counted repeat renders to empty text exactly when the atomic
    render of its child is empty; it never renders as bare braces. *)
Theorem counted_regex_empty_iff (child : RegexNode) (n m : Z) (is_lazy as_atom : bool) :
  (regex (RepeatExactlyN child n is_lazy) as_atom = "" <-> regex child true = "")
  /\ (regex (RepeatAtLeastN child n is_lazy) as_atom = "" <-> regex child true = "")
  /\ (regex (RepeatAtMostN child n is_lazy) as_atom = "" <-> regex child true = "")
  /\ (regex (RepeatBetweenNM child n m is_lazy) as_atom = ""
      <-> regex child true = "").
Proof.
  repeat split; simpl;
    destruct (String.eqb (regex child true) "") eqn:Hchild;
    try (intros _; apply String.eqb_eq; exact Hchild);
    try (intros _; reflexivity);
    try (intros H; apply finish_empty in H; apply append_eq_empty in H as [H _];
         exact H);
    intros H; apply String.eqb_neq in Hchild; contradiction.
Qed.

(** X4. Rendering a Sequence is rendering its items one after the other:
    the render of a concatenation of item lists is the concatenation of the
    renders, and a Sequence nested among the items renders as if its items
    were spliced in its place. *)
Theorem Sequence_regex_splices (before inner after : list RegexNode) :
  regex (Sequence (before ++ after)) false
  = regex (Sequence before) false ++ regex (Sequence after) false
  /\ regex (Sequence (before ++ Sequence inner :: after)) false
     = regex (Sequence (before ++ inner ++ after)) false.
Proof.
  assert (Happ : forall xs ys,
             regex (Sequence (xs ++ ys)) false
             = regex (Sequence xs) false ++ regex (Sequence ys) false).
  { intros xs ys. simpl. rewrite map_app. apply join_empty_app. }
  split; [apply Happ|].
  change (Sequence inner :: after) with ([Sequence inner] ++ after)%list.
  rewrite (Happ before ([Sequence inner] ++ after)%list).
  rewrite (Happ [Sequence inner] after).
  rewrite (Happ before (inner ++ after)%list), (Happ inner after).
  reflexivity.
Qed.

(** ** Simplification *)

Lemma comprehension_skips_EmptyNode (items : list RegexNode) :
  bind (comprehension optimised (filter __bool__ items))
       (fun l => Ok (filter __bool__ l))
  = bind (comprehension optimised items) (fun l => Ok (filter __bool__ l)).
Proof.
  induction items as [|item items IH]; [reflexivity|].
  destruct (__bool__ item) eqn:Hitem.
  - change (filter __bool__ (item :: items)) with
      (if __bool__ item then item :: filter __bool__ items
       else filter __bool__ items).
    rewrite Hitem.
    change (comprehension optimised (item :: ?l)) with
      (match optimised item with
       | Raise e => Raise e
       | Ok y => match comprehension optimised l with
                 | Raise e => Raise e
                 | Ok ys => Ok (y :: ys)
                 end
       end) in *.
    simpl. destruct (optimised item) as [item'|e]; [|reflexivity].
    destruct (comprehension optimised (filter __bool__ items)) as [l1|e1];
      destruct (comprehension optimised items) as [l2|e2]; simpl in *;
      try discriminate; try (rewrite IH; reflexivity).
    injection IH as IH. rewrite IH. reflexivity.
  - assert (item = EmptyNode) as -> by (destruct item; try discriminate; reflexivity).
    simpl. rewrite IH.
    destruct (comprehension optimised items); reflexivity.
Qed.

(** X5. Empty items of a Sequence never matter to its simplification:
    dropping them beforehand gives the same result, tree or exception. *)
Theorem Sequence_optimised_skips_EmptyNode (items : list RegexNode) :
  optimised (Sequence (filter __bool__ items)) = optimised (Sequence items).
Proof.
  pose proof (comprehension_skips_EmptyNode items) as H. simpl.
  destruct (comprehension optimised (filter __bool__ items)) as [l1|e1];
    destruct (comprehension optimised items) as [l2|e2]; simpl in *;
    try discriminate; injection H as H; rewrite H; reflexivity.
Qed.

(** X6. A Sequence of one item simplifies exactly as the item does, and so
    does a Sequence that holds the item between Empty nodes. *)
Theorem Sequence_of_one_optimised (P : RegexNode) :
  optimised (Sequence [P]) = optimised P
  /\ optimised (Sequence [EmptyNode; P; EmptyNode]) = optimised P.
Proof.
  split; simpl; destruct (optimised P) as [P'|e]; simpl; try reflexivity;
    destruct P'; reflexivity.
Qed.

(** X7. A count of 1 dissolves a Repeat-Exactly and a Repeat-At-Most: the
    node simplifies exactly as its child does.  A count of 0 gives the
    Empty node
    without the child being simplified at all, so also around a child
    whose own simplification raises. *)
Theorem count_0_and_1_optimised (P : RegexNode) (is_lazy : bool) :
  optimised (RepeatExactlyN P 1 is_lazy) = optimised P
  /\ optimised (RepeatAtMostN P 1 is_lazy) = optimised P
  /\ optimised (RepeatExactlyN P 0 is_lazy) = Ok EmptyNode
  /\ optimised (RepeatAtMostN P 0 is_lazy) = Ok EmptyNode.
Proof.
  repeat split; simpl; destruct (is_EmptyNode P) eqn:HP; try reflexivity;
    try (apply is_EmptyNode_true in HP; subst P; reflexivity);
    destruct (optimised P); reflexivity.
Qed.

(** X8. Simplifying a Repeat-At-Least with count 0 or 1 gives what
    simplifying the greedy Zero-Or-More or One-Or-More of the child gives:
    the laziness flag of the repeat is dropped. *)
Theorem RepeatAtLeastN_drops_laziness (P : RegexNode) (is_lazy : bool) :
  optimised (RepeatAtLeastN P 0 is_lazy) = optimised (ZeroOrMore P false)
  /\ optimised (RepeatAtLeastN P 1 is_lazy) = optimised (OneOrMore P false).
Proof.
  split; simpl; destruct (is_EmptyNode P); try reflexivity;
    destruct (optimised P); reflexivity.
Qed.

(** X9. A Mode Group without modifiers is transparent: it renders as its
    child does, with the same atom flag, and simplifies as its child
    does. *)
Theorem ModeGroup_without_modifiers (P : RegexNode) (as_atom : bool) :
  regex (ModeGroup "" P) as_atom = regex P as_atom
  /\ optimised (ModeGroup "" P) = optimised P.
Proof.
  split; simpl; destruct (is_EmptyNode P) eqn:HP; try reflexivity;
    apply is_EmptyNode_true in HP; subst P; reflexivity.
Qed.

Lemma Forall2_optimised_Forall (Q : RegexNode -> Prop) (items items' : list RegexNode) :
  Forall (fun item => forall item', optimised item = Ok item' -> Q item') items ->
  Forall2 (fun item item' => optimised item = Ok item') items items' ->
  Forall Q items'.
Proof.
  intros HQ H. induction H as [|item item' items items' Hitem _ IH].
  - constructor.
  - inversion HQ as [|? ? Hhead Htail]; subst. constructor; auto.
Qed.

(** X10. Whatever tree a simplification returns, no rule is left to apply
    at any of its nodes outside the character classes: it holds no
    non-capturing group, no mode group without modifiers, no Range with
    equal bounds, no counted repeat with a collapsing count, and each of
    its Sequences has at least two items, none of them Empty. *)
Theorem optimised_collapsed (t t' : RegexNode) :
  optimised t = Ok t' -> collapsed t' = true.
Proof.
  revert t'. induction t as
    [ | items IH | options IH | char | p l IH | p l IH | p l IH | p IH | p IH
    | name p IH | modifiers p IH | name t e IHt IHe | p symbol IH | |
    | options IH | from_char to_char | p n l IH | p n l IH | p n l IH
    | p n m l IH ] using RegexNode_tree_ind; simpl; intros t' H;
    try (injection H as <-; reflexivity).
  - destruct (comprehension optimised items) as [items'|e] eqn:Hc; [|discriminate].
    apply comprehension_Ok in Hc. simpl in H.
    pose proof (Forall2_optimised_Forall (fun x => collapsed x = true) _ _ IH Hc)
      as Hall.
    assert (Hkept : Forall (fun x => __bool__ x && collapsed x = true)
                           (filter __bool__ items')).
    { apply Forall_forall. intros x Hx. apply filter_In in Hx as [Hin Hb].
      rewrite Forall_forall in Hall. rewrite Hb, (Hall x Hin). reflexivity. }
    destruct (filter __bool__ items') as [|a [|b rest]].
    + injection H as <-. reflexivity.
    + injection H as <-. inversion Hkept as [|? ? Ha _]; subst.
      apply andb_true_iff in Ha as [_ Ha]. exact Ha.
    + injection H as <-.
      change (collapsed (Sequence (a :: b :: rest))) with
        ((2 <=? Z.of_nat (List.length (a :: b :: rest)))
         && forallb (fun item => __bool__ item && collapsed item) (a :: b :: rest)).
      apply andb_true_iff. split.
      * apply Z.leb_le. simpl List.length. lia.
      * apply forallb_forall. rewrite Forall_forall in Hkept. exact Hkept.
  - destruct (comprehension optimised options) as [options'|e] eqn:Hc; [|discriminate].
    apply comprehension_Ok in Hc. simpl in H. injection H as <-.
    pose proof (Forall2_optimised_Forall (fun x => collapsed x = true) _ _ IH Hc)
      as Hall.
    simpl. apply forallb_forall. rewrite Forall_forall in Hall. exact Hall.
  - destruct (is_EmptyNode p); [injection H as <-; reflexivity|].
    destruct (optimised p) as [p'|e]; [|discriminate]. injection H as <-.
    simpl. auto.
  - destruct (is_EmptyNode p); [injection H as <-; reflexivity|].
    destruct (optimised p) as [p'|e]; [|discriminate]. injection H as <-.
    simpl. auto.
  - destruct (is_EmptyNode p); [injection H as <-; reflexivity|].
    destruct (optimised p) as [p'|e]; [|discriminate]. injection H as <-.
    simpl. auto.
  - destruct (optimised p) as [p'|e]; [|discriminate]. injection H as <-.
    simpl. auto.
  - auto.
  - destruct (optimised p) as [p'|e]; [|discriminate]. injection H as <-.
    simpl. auto.
  - destruct (is_EmptyNode p); [injection H as <-; reflexivity|].
    destruct (len_is_0 modifiers) eqn:Hm; [auto|].
    destruct (optimised p) as [p'|e]; [|discriminate]. injection H as <-.
    simpl. rewrite Hm. simpl. auto.
  - destruct (is_EmptyNode t && is_EmptyNode e); [injection H as <-; reflexivity|].
    destruct (optimised t) as [t0|e0]; [|discriminate].
    destruct (optimised e) as [e1|e0]; [|discriminate]. injection H as <-.
    simpl. rewrite (IHt t0 eq_refl), (IHe e1 eq_refl). reflexivity.
  - destruct (is_EmptyNode p); [injection H as <-; reflexivity|].
    destruct (optimised p) as [p'|e]; [|discriminate]. injection H as <-.
    simpl. auto.
  - destruct (String.eqb from_char to_char) eqn:Heq; injection H as <-;
      [reflexivity | simpl; rewrite Heq; reflexivity].
  - destruct (is_EmptyNode p); [injection H as <-; reflexivity|].
    destruct (n =? 0) eqn:H0; [injection H as <-; reflexivity|].
    destruct (optimised p) as [p'|e]; [|discriminate]. simpl in H.
    destruct (n =? 1) eqn:H1; injection H as <-; [auto|].
    simpl. rewrite H0, H1. simpl. auto.
  - destruct (is_EmptyNode p); [injection H as <-; reflexivity|].
    destruct (optimised p) as [p'|e]; [|discriminate]. simpl in H.
    destruct (n =? 0) eqn:H0; [injection H as <-; simpl; auto|].
    destruct (n =? 1) eqn:H1; injection H as <-; simpl; [auto|].
    rewrite H0, H1. simpl. auto.
  - destruct (is_EmptyNode p); [injection H as <-; reflexivity|].
    destruct (n =? 0) eqn:H0; [injection H as <-; reflexivity|].
    destruct (optimised p) as [p'|e]; [|discriminate]. simpl in H.
    destruct (n =? 1) eqn:H1; injection H as <-; [auto|].
    simpl. rewrite H0, H1. simpl. auto.
  - destruct (is_EmptyNode p); [injection H as <-; reflexivity|].
    destruct (optimised p) as [p'|e]; [|discriminate]. simpl in H.
    destruct (n =? m) eqn:Hnm; [discriminate|].
    destruct (m =? 0) eqn:H0; [injection H as <-; reflexivity|].
    destruct (m =? 1) eqn:H1; injection H as <-; simpl; [auto|].
    rewrite Hnm, H0, H1. simpl. auto.
Qed.

Lemma Forall2_optimised_size (items items' : list RegexNode) :
  Forall (fun item => forall item', optimised item = Ok item' ->
                                    (size item' <= size item)%nat) items ->
  Forall2 (fun item item' => optimised item = Ok item') items items' ->
  (list_sum (map size (filter __bool__ items')) <= list_sum (map size items))%nat.
Proof.
  intros HQ H. induction H as [|item item' items items' Hitem _ IH]; simpl.
  - lia.
  - inversion HQ as [|? ? Hhead Htail]; subst.
    specialize (IH Htail). specialize (Hhead item' Hitem).
    destruct (__bool__ item'); simpl; lia.
Qed.

Lemma Forall2_optimised_size_all (items items' : list RegexNode) :
  Forall (fun item => forall item', optimised item = Ok item' ->
                                    (size item' <= size item)%nat) items ->
  Forall2 (fun item item' => optimised item = Ok item') items items' ->
  (list_sum (map size items') <= list_sum (map size items))%nat.
Proof.
  intros HQ H. induction H as [|item item' items items' Hitem _ IH]; simpl.
  - lia.
  - inversion HQ as [|? ? Hhead Htail]; subst.
    specialize (IH Htail). specialize (Hhead item' Hitem). lia.
Qed.

(** X11. Simplification never grows a tree: the tree it returns has at
    most as many nodes as the tree it was given. *)
Theorem optimised_size (t t' : RegexNode) :
  optimised t = Ok t' -> (size t' <= size t)%nat.
Proof.
  revert t'. induction t as
    [ | items IH | options IH | char | p l IH | p l IH | p l IH | p IH | p IH
    | name p IH | modifiers p IH | name t e IHt IHe | p symbol IH | |
    | options IH | from_char to_char | p n l IH | p n l IH | p n l IH
    | p n m l IH ] using RegexNode_tree_ind; simpl; intros t' H;
    try (injection H as <-; simpl; lia);
    try (destruct (is_EmptyNode p); [injection H as <-; simpl; lia|]).
  - destruct (comprehension optimised items) as [items'|e] eqn:Hc; [|discriminate].
    apply comprehension_Ok in Hc. simpl in H.
    pose proof (Forall2_optimised_size _ _ IH Hc) as Hsum.
    destruct (filter __bool__ items') as [|a [|b rest]]; injection H as <-;
      simpl in *; lia.
  - destruct (comprehension optimised options) as [options'|e] eqn:Hc; [|discriminate].
    apply comprehension_Ok in Hc. simpl in H. injection H as <-.
    pose proof (Forall2_optimised_size_all _ _ IH Hc). simpl. lia.
  - destruct (optimised p) as [p'|e]; [|discriminate]. injection H as <-.
    specialize (IH p' eq_refl). simpl. lia.
  - destruct (optimised p) as [p'|e]; [|discriminate]. injection H as <-.
    specialize (IH p' eq_refl). simpl. lia.
  - destruct (optimised p) as [p'|e]; [|discriminate]. injection H as <-.
    specialize (IH p' eq_refl). simpl. lia.
  - destruct (optimised p) as [p'|e]; [|discriminate]. injection H as <-.
    specialize (IH p' eq_refl). simpl. lia.
  - specialize (IH t' H). lia.
  - destruct (optimised p) as [p'|e]; [|discriminate]. injection H as <-.
    specialize (IH p' eq_refl). simpl. lia.
  - destruct (len_is_0 modifiers); [specialize (IH t' H); lia|].
    destruct (optimised p) as [p'|e]; [|discriminate]. injection H as <-.
    specialize (IH p' eq_refl). simpl. lia.
  - destruct (is_EmptyNode t && is_EmptyNode e); [injection H as <-; simpl; lia|].
    destruct (optimised t) as [t0|e0]; [|discriminate].
    destruct (optimised e) as [e1|e0]; [|discriminate]. injection H as <-.
    specialize (IHt t0 eq_refl). specialize (IHe e1 eq_refl). simpl. lia.
  - destruct (optimised p) as [p'|e]; [|discriminate]. injection H as <-.
    specialize (IH p' eq_refl). simpl. lia.
  - destruct (String.eqb from_char to_char); injection H as <-; simpl; lia.
  - destruct (n =? 0); [injection H as <-; simpl; lia|].
    destruct (optimised p) as [p'|e]; [|discriminate]. simpl in H.
    specialize (IH p' eq_refl).
    destruct (n =? 1); injection H as <-; simpl; lia.
  - destruct (optimised p) as [p'|e]; [|discriminate]. simpl in H.
    specialize (IH p' eq_refl).
    destruct (n =? 0); [injection H as <-; simpl; lia|].
    destruct (n =? 1); injection H as <-; simpl; lia.
  - destruct (n =? 0); [injection H as <-; simpl; lia|].
    destruct (optimised p) as [p'|e]; [|discriminate]. simpl in H.
    specialize (IH p' eq_refl).
    destruct (n =? 1); injection H as <-; simpl; lia.
  - destruct (optimised p) as [p'|e]; [|discriminate]. simpl in H.
    specialize (IH p' eq_refl).
    destruct (n =? m); [discriminate|].
    destruct (m =? 0); [injection H as <-; simpl; lia|].
    destruct (m =? 1); injection H as <-; simpl; lia.
Qed.

Lemma optimised_tower (k : nat) : optimised (tower (S k)) = Ok (tower k).
Proof.
  induction k as [|k IH]; [reflexivity|].
  change (tower (S (S k))) with (OneOrMore (tower (S k)) false).
  change (optimised (OneOrMore (tower (S k)) false)) with
    (optimised_pattern <- optimised (tower (S k)) ;;
     Ok (OneOrMore optimised_pattern false)).
  rewrite IH. reflexivity.
Qed.

Lemma passes_tower (k j : nat) : passes k (tower (k + j)) = Ok (tower j).
Proof.
  induction k as [|k IH]; [reflexivity|].
  change (passes (S k) (tower (S k + j))) with
    (t' <- optimised (tower (S (k + j))) ;; passes k t').
  rewrite optimised_tower. exact IH.
Qed.

(** X12. No fixed number of passes brings every tree to a tree that
    simplification leaves alone: for each k a tree exists on which k
    passes in a row return a tree that one more pass still changes (k + 1
    nested One-Or-More nodes around the Empty node lose one level a
    pass). *)
Theorem no_number_of_passes_suffices (k : nat) :
  passes k (tower (S k)) = Ok (tower 1)
  /\ optimised (tower 1) = Ok EmptyNode
  /\ exists t t' t'',
       passes k t = Ok t' /\ optimised t' = Ok t'' /\ t'' <> t'.
Proof.
  assert (H : passes k (tower (S k)) = Ok (tower 1)).
  { replace (S k) with (k + 1)%nat by lia. apply passes_tower. }
  split; [exact H|]. split; [reflexivity|].
  exists (tower (S k)), (tower 1), EmptyNode.
  split; [exact H|]. split; [reflexivity | discriminate].
Qed.

(** ** The debug tree *)

Lemma print_is_iterate (tree : Json) :
  forall depth stdout,
    _print_pretty_tree tree depth stdout
    = (stdout ++ _ipretty_tree tree depth)%list.
Proof.
  induction tree as [ | s | items IH | entries IH ] using Json_tree_ind;
    intros depth stdout; simpl; try reflexivity.
  - revert stdout. induction IH as [|item rest Hitem _ IHrest]; intros stdout; simpl.
    + rewrite app_nil_r. reflexivity.
    + rewrite Hitem, IHrest, app_assoc. reflexivity.
  - revert stdout.
    induction IH as [|[name subtree] rest Hentry _ IHrest]; intros stdout; simpl.
    + rewrite app_nil_r. reflexivity.
    + simpl in Hentry. destruct (no_subtree subtree).
      * rewrite IHrest, <- app_assoc. reflexivity.
      * rewrite Hentry, IHrest, <- !app_assoc. reflexivity.
Qed.

Lemma deeper_is_indented (tree : Json) :
  forall depth,
    _ipretty_tree tree (S depth)
    = map (fun line => "|   " ++ line) (_ipretty_tree tree depth).
Proof.
  induction tree as [ | s | items IH | entries IH ] using Json_tree_ind;
    intros depth; simpl; try reflexivity.
  - induction IH as [|item rest Hitem _ IHrest]; simpl; [reflexivity|].
    rewrite map_app, Hitem, IHrest. reflexivity.
  - induction IH as [|[name subtree] rest Hentry _ IHrest]; simpl; [reflexivity|].
    simpl in Hentry. rewrite map_app, IHrest.
    destruct (no_subtree subtree); simpl; [reflexivity|].
    rewrite Hentry. reflexivity.
Qed.

(** X13. [_print_pretty_tree] prints, after what the output already holds,
    exactly the lines [_ipretty_tree] yields for the same tree and depth,
    in the same order. *)
Theorem _print_pretty_tree_prints_the_yielded_lines
    (tree : Json) (depth : nat) (stdout : list string) :
  _print_pretty_tree tree depth stdout
  = (stdout ++ _ipretty_tree tree depth)%list.
Proof. apply print_is_iterate. Qed.

(** X14. The depth only indents: the lines of a tree at any depth are its
    lines at depth 0, each behind one marker per level. *)
Theorem _ipretty_tree_depth_indents (tree : Json) (depth : nat) :
  _ipretty_tree tree depth
  = map (fun line => indentation depth ++ line) (_ipretty_tree tree 0).
Proof.
  induction depth as [|depth IH].
  - simpl. rewrite map_id. reflexivity.
  - rewrite deeper_is_indented, IH, map_map. apply map_ext.
    intros line. reflexivity.
Qed.

(** X15. A list adds no level: the lines of a list are the lines of its
    values one after the other, and a list nested in a list prints as if
    its values stood in its place. *)
Theorem _ipretty_tree_flattens_lists (before inner after : list Json) (depth : nat) :
  _ipretty_tree (JList (before ++ after)) depth
  = (_ipretty_tree (JList before) depth ++ _ipretty_tree (JList after) depth)%list
  /\ _ipretty_tree (JList (before ++ JList inner :: after)) depth
     = _ipretty_tree (JList (before ++ inner ++ after)) depth.
Proof.
  split; simpl.
  - apply flat_map_app.
  - rewrite !flat_map_app. simpl. reflexivity.
Qed.

Lemma as_json_of_shape (class_name : string) (fields : list (string * Json)) :
  (exists rest, as_json_of class_name fields
                = JStr (prettify_classname class_name ++ rest))
  \/ (exists subtree, as_json_of class_name fields
                      = JDict [(prettify_classname class_name, subtree)]).
Proof.
  destruct fields as [|[field value] [|second rest]]; simpl.
  - left. exists "". rewrite append_empty_r. reflexivity.
  - destruct value; try (right; eexists; reflexivity).
    left. eexists. reflexivity.
  - right. eexists. reflexivity.
Qed.

Lemma as_json_shape (L : RegexNode -> string -> string) (t : RegexNode) :
  (exists rest, as_json L t = JStr (label L t ++ rest))
  \/ (exists subtree, as_json L t = JDict [(label L t, subtree)]).
Proof.
  destruct t; try apply as_json_of_shape.
  left. exists "". reflexivity.
Qed.

(** X16. The debug tree of a node is never [None] nor a list: it is a text
    that starts with the displayed name of the node's class, or a [dict]
    with that name as its only key. *)
Theorem as_json_is_labelled (L : RegexNode -> string -> string) (t : RegexNode) :
  (exists rest, as_json L t = JStr (label L t ++ rest))
  \/ (exists subtree, as_json L t = JDict [(label L t, subtree)]).
Proof. apply as_json_shape. Qed.

(** X17. [pretty_print] calls [print] at least once; the text of the
    first call is not indented and starts with the displayed name of the
    node's class, and the text of every later call starts with the
    indentation marker. *)
Theorem pretty_print_lines (L : RegexNode -> string -> string) (t : RegexNode) :
  exists rest lines,
    pretty_print L t = (label L t ++ rest) :: lines
    /\ Forall (fun line => exists indented, line = "|   " ++ indented) lines.
Proof.
  unfold pretty_print. cbv zeta. rewrite print_is_iterate.
  destruct (as_json_shape L t) as [[rest ->] | [subtree ->]]; simpl.
  - exists rest, []. split; [reflexivity | constructor].
  - exists "". eexists. rewrite append_empty_r, app_nil_r. split; [reflexivity|].
    destruct (no_subtree subtree); [constructor|].
    rewrite deeper_is_indented. apply Forall_forall. intros line Hline.
    apply in_map_iff in Hline as [indented [<- _]]. exists indented. reflexivity.
Qed.

Lemma sub_lower_upper_only_spaces (name : string) :
  forall previous,
    without_spaces (sub_lower_upper previous name) = without_spaces name.
Proof.
  induction name as [|c name IH]; intros previous; [reflexivity|].
  simpl. destruct previous as [p|]; [destruct (is_lower p && is_upper c)|];
    simpl; rewrite IH; reflexivity.
Qed.

(** X18. [prettify_classname] changes a class name only by putting spaces
    in: with the spaces taken out, the displayed name is the name it was
    made from, so a name without spaces is got back whole. *)
Theorem prettify_classname_only_adds_spaces (name : string) :
  without_spaces (prettify_classname name) = without_spaces name
  /\ (without_spaces name = name ->
      without_spaces (prettify_classname name) = name).
Proof.
  assert (H : without_spaces (prettify_classname name) = without_spaces name)
    by apply sub_lower_upper_only_spaces.
  split; [exact H|]. intros Hname. rewrite H. exact Hname.
Qed.

Lemma prettify_classname_only_adds_spaces_witness :
  prettify_classname "RepeatBetweenNM" = "Repeat Between NM"
  /\ without_spaces (prettify_classname "RepeatBetweenNM") = "RepeatBetweenNM".
Proof.
  split; [reflexivity|].
  apply (prettify_classname_only_adds_spaces "RepeatBetweenNM"). reflexivity.
Defined.

Lemma optimised_collapsed_witness :
  collapsed (Sequence [SingleChar "a"; OneOrMore (SingleChar "b") false]) = true.
Proof.
  apply (optimised_collapsed
           (Sequence [NonCapturingGroup (SingleChar "a"); EmptyNode;
                      RepeatAtLeastN (ModeGroup "" (SingleChar "b")) 1 true])).
  reflexivity.
Defined.

Lemma optimised_size_witness :
  (size (SingleChar "a")
   <= size (Sequence [EmptyNode;
                      NonCapturingGroup (Sequence [RepeatExactlyN (SingleChar "a") 1 false]);
                      EmptyNode]))%nat.
Proof.
  apply (optimised_size
           (Sequence [EmptyNode;
                      NonCapturingGroup (Sequence [RepeatExactlyN (SingleChar "a") 1 false]);
                      EmptyNode])).
  reflexivity.
Defined.

(** X19. A wrapper simplifies to the Empty node only around the Empty node
    itself: a quantifier or a lookaround when its child is Empty, a
    conditional group when both branches are, a capturing group never.  A
    child that only simplifies to Empty does not make its parent vanish in
    the same pass. *)
Theorem wrappers_vanish_only_around_EmptyNode
    (p e : RegexNode) (is_lazy : bool) (name symbol : string) :
  (optimised (OneOrMore p is_lazy) = Ok EmptyNode <-> p = EmptyNode)
  /\ (optimised (ZeroOrMore p is_lazy) = Ok EmptyNode <-> p = EmptyNode)
  /\ (optimised (Optional p is_lazy) = Ok EmptyNode <-> p = EmptyNode)
  /\ (optimised (Lookaround p symbol) = Ok EmptyNode <-> p = EmptyNode)
  /\ (optimised (IfElseGroup name p e) = Ok EmptyNode
      <-> p = EmptyNode /\ e = EmptyNode)
  /\ optimised (CapturingGroup p) <> Ok EmptyNode
  /\ optimised (NamedCapturingGroup name p) <> Ok EmptyNode.
Proof.
  assert (Hchild : forall wrap : RegexNode -> RegexNode,
             (forall t, wrap t <> EmptyNode) ->
             (if is_EmptyNode p then Ok EmptyNode
              else optimised_pattern <- optimised p ;; Ok (wrap optimised_pattern))
             = Ok EmptyNode <-> p = EmptyNode).
  { intros wrap Hwrap. split.
    - destruct (is_EmptyNode p) eqn:Hp;
        [intros _; apply is_EmptyNode_true; exact Hp|].
      destruct (optimised p) as [p'|]; simpl; [|discriminate].
      intros H. injection H as H. contradiction (Hwrap p').
    - intros ->. reflexivity. }
  split; [apply (Hchild (fun t => OneOrMore t is_lazy)); discriminate|].
  split; [apply (Hchild (fun t => ZeroOrMore t is_lazy)); discriminate|].
  split; [apply (Hchild (fun t => Optional t is_lazy)); discriminate|].
  split; [apply (Hchild (fun t => Lookaround t symbol)); discriminate|].
  split; [|split].
  - simpl. split.
    + destruct (is_EmptyNode p) eqn:Hp; destruct (is_EmptyNode e) eqn:He; simpl;
        try (intros _; split; apply is_EmptyNode_true; assumption);
        destruct (optimised p); simpl; try discriminate;
        destruct (optimised e); simpl; discriminate.
    + intros [-> ->]. reflexivity.
  - simpl. destruct (optimised p); simpl; discriminate.
  - simpl. destruct (optimised p); simpl; discriminate.
Qed.

(** X20. Simplification returns a tree for every tree that holds no
    Repeat-Between with equal bounds around a child other than Empty; the
    exception of that one case is the only way for it not to return. *)
Theorem optimised_returns_when_bounds_differ (t : RegexNode) :
  bounds_differ t = true -> exists t', optimised t = Ok t'.
Proof. apply optimised_returns. Qed.

Lemma optimised_returns_when_bounds_differ_witness :
  exists t',
    optimised (Sequence [RepeatBetweenNM (SingleChar "a") 2 3 true;
                         RepeatBetweenNM EmptyNode 4 4 false]) = Ok t'.
Proof.
  apply (optimised_returns_when_bounds_differ
           (Sequence [RepeatBetweenNM (SingleChar "a") 2 3 true;
                      RepeatBetweenNM EmptyNode 4 4 false])).
  reflexivity.
Defined.

(** ** The rules behind C7 and C8, for children that simplify *)

(** X21. Simplifying an Alternation whose children simplify to options'
    (one per child, in order) returns the Alternation of exactly options';
    whenever it returns, the result is such an Alternation, with as many
    options as before, and an Empty child stays.  Rendering at the root
    puts a bar between the children's renders; a parent gets that text in
    a non-capturing group. *)
Theorem Alternation_keeps_options (options : list RegexNode) :
  (forall options',
     Forall2 (fun o o' => optimised o = Ok o') options options' ->
     optimised (Alternation options) = Ok (Alternation options'))
  /\ (forall t,
        optimised (Alternation options) = Ok t ->
        exists options',
          t = Alternation options'
          /\ Forall2 (fun o o' => optimised o = Ok o') options options'
          /\ List.length options' = List.length options)
  /\ optimised (Alternation [EmptyNode; EmptyNode])
     = Ok (Alternation [EmptyNode; EmptyNode])
  /\ forall as_atom,
       Alternation_regex [] as_atom true = ""
       /\ (forall a, Alternation_regex [a] as_atom true = regex a false)
       /\ (forall a b rest,
             Alternation_regex (a :: b :: rest) as_atom true
             = regex a false ++ "|" ++ Alternation_regex (b :: rest) as_atom true)
       /\ Alternation_regex options as_atom false
          = "(?:" ++ Alternation_regex options as_atom true ++ ")"
       /\ regex (Alternation options) as_atom
          = "(?:" ++ Alternation_regex options as_atom true ++ ")".
Proof.
  split; [|split; [|split]].
  - intros options' H. apply comprehension_Ok in H. simpl. rewrite H. reflexivity.
  - intros t Ht. simpl in Ht.
    destruct (comprehension optimised options) as [options'|e] eqn:Hc;
      [|discriminate].
    simpl in Ht. injection Ht as <-. exists options'.
    apply comprehension_Ok in Hc. split; [reflexivity|]. split; [exact Hc|].
    symmetry. eapply Forall2_length. exact Hc.
  - reflexivity.
  - intros as_atom. repeat split.
Qed.

Lemma Alternation_keeps_options_witness :
  optimised (Alternation [EmptyNode; Range "a" "a"; Sequence []])
  = Ok (Alternation [EmptyNode; SingleChar "a"; EmptyNode]).
Proof.
  apply (Alternation_keeps_options [EmptyNode; Range "a" "a"; Sequence []]).
  repeat constructor.
Defined.

(** X22. For a child P other than Empty whose simplification returns P',
    and a lower bound n other than 1, simplifying Repeat-Between(P, n, 1)
    returns Optional(P') with the laziness flag n = 0, whatever the
    laziness flag of the repeat. *)
Theorem RepeatBetweenNM_upper_1 (P P' : RegexNode) (n : Z) (is_lazy : bool) :
  P <> EmptyNode ->
  n <> 1 ->
  optimised P = Ok P' ->
  optimised (RepeatBetweenNM P n 1 is_lazy) = Ok (Optional P' (n =? 0)).
Proof.
  intros HP Hn HP'. apply is_EmptyNode_false in HP. apply Z.eqb_neq in Hn.
  simpl. rewrite HP, HP'. simpl. rewrite Hn. reflexivity.
Qed.

Lemma RepeatBetweenNM_upper_1_witness :
  optimised (RepeatBetweenNM (Range "a" "a") 0 1 false)
  = Ok (Optional (SingleChar "a") true)
  /\ optimised (RepeatBetweenNM (Range "a" "a") 5 1 true)
     = Ok (Optional (SingleChar "a") false).
Proof.
  split.
  - apply (RepeatBetweenNM_upper_1 (Range "a" "a") (SingleChar "a") 0 false);
      [discriminate | lia | reflexivity].
  - apply (RepeatBetweenNM_upper_1 (Range "a" "a") (SingleChar "a") 5 true);
      [discriminate | lia | reflexivity].
Defined.
